(** * KUBERNETES_MIN_VERSION injection transformer

    A shallow embedding of [pkg/reconciler/common/kubernetes_min_version.go]
    and of the helpers of its test file, with the properties of the
    transformer stated over it.

    The Go code mutates an [*unstructured.Unstructured] through a pointer and
    reports an [error]; here a transformer is a state-passing function over
    the document handle, and every call into the document's collaborators
    ([GetKind], [scheme.Scheme.Convert], [SetCreationTimestamp]) is recorded
    in a call log, so that "no decode is attempted" is a statement about the
    log. *)

From stdpp Require Import base list strings.

(** ** Data model: the part of [corev1] the transformer reads and writes *)

(** [corev1.EnvVar], an environment entry: a name/value pair. *)
Record EnvVar := { Name : string; Value : string }.

#[global] Instance EnvVar_eq_dec : EqDecision EnvVar.
Proof. solve_decision. Defined.

(** Fields of a typed shape that this file never reads or writes, kept as
    an opaque list of rendered (path, value) pairs. *)
Definition OtherFields := list (string * string).

(** [corev1.Container]. *)
Record Container := {
  ContainerName : string;
  Env : list EnvVar;
  ContainerOther : OtherFields
}.

(** [corev1.PodSpec]. *)
Record PodSpec := {
  Containers : list Container;
  InitContainers : list Container;
  PodSpecOther : OtherFields
}.

Definition withEnv (c : Container) (env : list EnvVar) : Container :=
  {| ContainerName := ContainerName c; Env := env;
     ContainerOther := ContainerOther c |}.

(** ** Env merge engine *)

Module Merge.

(** Index and entry of the first element of [target] named [name]: the
    inner scan of the merge, stopping at the first match. *)
Definition findFirst (name : string) (target : list EnvVar) : option (nat * EnvVar) :=
  list_find (λ e, Name e = name) target.

(** One override entry against the target: replace the value of the first
    entry of the same name in place, otherwise append the override. *)
Definition mergeOne (target : list EnvVar) (o : EnvVar) : list EnvVar :=
  match findFirst (Name o) target with
  | Some (i, e) => <[i := {| Name := Name e; Value := Value o |}]> target
  | None => target ++ [o]
  end.

(** Modelled from the spec: [mergeEnv(src, tgt *[]corev1.EnvVar)] is called
    by [applyMinVersionEnvVar] but its definition is not among the sources.
    Section 4.1 of the specification: for each override entry, in override
    order, an entry of the same name anywhere in the target has the value of
    its first occurrence replaced in place, and otherwise the override is
    appended to the end of the target; for an empty target the overrides
    become the entire list, in override order. The Go function writes through
    [tgt]; the model returns the new contents of [*tgt]. *)
Definition mergeEnv (src tgt : list EnvVar) : list EnvVar :=
  match tgt with
  | [] => src
  | _ :: _ => foldl mergeOne tgt src
  end.

(** The rule of section 4.1 for one override, as a relation between the
    target before and after. *)
Inductive MergeStep (o : EnvVar) : list EnvVar → list EnvVar → Prop :=
  | step_replace l1 e l2 :
      Name e = Name o →
      Forall (λ x, Name x ≠ Name o) l1 →
      MergeStep o (l1 ++ e :: l2)
                  (l1 ++ {| Name := Name e; Value := Value o |} :: l2)
  | step_append l :
      Forall (λ x, Name x ≠ Name o) l →
      MergeStep o l (l ++ [o]).

(** The rule applied to the overrides one after the other, in order. *)
Inductive MergeAll : list EnvVar → list EnvVar → list EnvVar → Prop :=
  | all_nil t : MergeAll [] t t
  | all_cons o os t t' t'' :
      MergeStep o t t' → MergeAll os t' t'' → MergeAll (o :: os) t t''.

End Merge.

Import Merge.

(** [hasEnv] of the test file: the first entry named [name] decides. *)
Fixpoint hasEnv (envs : list EnvVar) (name value : string) : bool :=
  match envs with
  | [] => false
  | env :: rest =>
      if String.eqb (Name env) name then String.eqb (Value env) value
      else hasEnv rest name value
  end.

(** ** Typed workload shapes *)

(** [metav1.Time]; [None] is the zero value [metav1.Time{}]. *)
Definition Time := option string.

(** [metav1.ObjectMeta]. *)
Record ObjectMeta := {
  ObjectName : string;
  Namespace : string;
  CreationTimestamp : Time;
  MetaOther : OtherFields
}.

(** The four kinds of the transformer's [switch]. *)
Inductive Kind := Deployment | StatefulSet | DaemonSet | Job.

#[global] Instance Kind_eq_dec : EqDecision Kind.
Proof. solve_decision. Defined.

Definition kindName (k : Kind) : string :=
  match k with
  | Deployment => "Deployment"
  | StatefulSet => "StatefulSet"
  | DaemonSet => "DaemonSet"
  | Job => "Job"
  end.

(** [appsv1.Deployment], [appsv1.StatefulSet], [appsv1.DaemonSet] and
    [batchv1.Job] as far as the transformer goes: the object metadata, the
    pod spec at [Spec.Template.Spec], and everything else. Which of the four
    Go types a value stands for is the [Kind] it is converted at. *)
Record Workload := {
  Meta : ObjectMeta;
  Spec_Template_Spec : PodSpec;
  WorkloadOther : OtherFields
}.

Definition withPodSpec (w : Workload) (podSpec : PodSpec) : Workload :=
  {| Meta := Meta w; Spec_Template_Spec := podSpec;
     WorkloadOther := WorkloadOther w |}.

Definition withCreationTimestamp (t : Time) (w : Workload) : Workload :=
  {| Meta := {| ObjectName := ObjectName (Meta w);
                Namespace := Namespace (Meta w);
                CreationTimestamp := t;
                MetaOther := MetaOther (Meta w) |};
     Spec_Template_Spec := Spec_Template_Spec w;
     WorkloadOther := WorkloadOther w |}.

(** A typed object with every environment list emptied: what is left is
    everything outside the container and init-container environment lists. *)
Definition outsideEnv (w : Workload) : Workload :=
  let strip := λ c, withEnv c [] in
  withPodSpec w
    {| Containers := strip <$> Containers (Spec_Template_Spec w);
       InitContainers := strip <$> InitContainers (Spec_Template_Spec w);
       PodSpecOther := PodSpecOther (Spec_Template_Spec w) |}.

(** ** The document handle and its collaborators *)

(** The operations of [*unstructured.Unstructured] and of
    [scheme.Scheme.Convert] that the transformer calls. They belong to
    k8s.io/apimachinery and k8s.io/client-go and are taken as parameters:
    - [GetKind] is [u.GetKind()];
    - [ConvertFrom k u] is [Convert(u, typed, nil)] into a fresh typed object
      of kind [k]: an error, or the decoded object;
    - [ConvertTo k w u] is [Convert(typed, u, nil)]: the error returned, if
      any, and the contents of [u] after the call;
    - [SetCreationTimestamp t u] is [u.SetCreationTimestamp(t)]. *)
Class Scheme (Unstructured Error : Type) := {
  GetKind : Unstructured → string;
  ConvertFrom : Kind → Unstructured → Error + Workload;
  ConvertTo : Kind → Workload → Unstructured → option Error * Unstructured;
  SetCreationTimestamp : Time → Unstructured → Unstructured
}.

(** A call made on the document handle. *)
Inductive Call :=
  | GetKindCall
  | DecodeCall (k : Kind)
  | EncodeCall (k : Kind) (w : Workload)
  | SetCreationTimestampCall (t : Time).

Section Transformer.

Context {Unstructured Error : Type} `{!Scheme Unstructured Error}.

(** What the pointer [u] refers to, with the calls made through it so far. *)
Record Handle := { Object : Unstructured; Calls : list Call }.

(** A computation on the handle. *)
Definition M (A : Type) : Type := Handle → A * Handle.

#[local] Instance M_ret : MRet M := λ A a h, (a, h).
#[local] Instance M_bind : MBind M :=
  λ A B f m h, let '(a, h') := m h in f a h'.

Definition logged (c : Call) (u : Unstructured) (h : Handle) : Handle :=
  {| Object := u; Calls := Calls h ++ [c] |}.

Definition getKind : M string :=
  λ h, (GetKind (Object h), logged GetKindCall (Object h) h).

Definition convertFrom (k : Kind) : M (Error + Workload) :=
  λ h, (ConvertFrom k (Object h), logged (DecodeCall k) (Object h) h).

Definition convertTo (k : Kind) (w : Workload) : M (option Error) :=
  λ h, let '(err, u) := ConvertTo k w (Object h) in
       (err, logged (EncodeCall k w) u h).

Definition setCreationTimestamp (t : Time) : M unit :=
  λ h, (tt, logged (SetCreationTimestampCall t)
                   (SetCreationTimestamp t (Object h)) h).

(** [mf.Transformer]: [func(u *unstructured.Unstructured) error], with [nil]
    as [None]. *)
Definition Transformer : Type := M (option Error).

(** [applyMinVersionEnvVar]: the two [range] loops merge into the
    environment list of each container, then of each init container. *)
Definition applyMinVersionEnvVar (podSpec : PodSpec) (minVersionEnv : list EnvVar)
    : PodSpec :=
  {| Containers :=
       (λ c, withEnv c (mergeEnv minVersionEnv (Env c))) <$> Containers podSpec;
     InitContainers :=
       (λ c, withEnv c (mergeEnv minVersionEnv (Env c))) <$> InitContainers podSpec;
     PodSpecOther := PodSpecOther podSpec |}.

(** The statements after the [switch]: reset the creation timestamp and
    return [nil]. *)
Definition afterSwitch : Transformer :=
  _ ← setCreationTimestamp None; mret None.

(** The transformer returned when the override is set. *)
Definition enabledTransform (minVersionEnv : list EnvVar) : Transformer :=
  kind ← getKind;
  if String.eqb kind "Deployment" then
    r ← convertFrom Deployment;
    match r with
    | inl err => mret (Some err)
    | inr deployment =>
        let podSpec := applyMinVersionEnvVar (Spec_Template_Spec deployment) minVersionEnv in
        err ← convertTo Deployment (withPodSpec deployment podSpec);
        match err with Some err => mret (Some err) | None => afterSwitch end
    end
  else if String.eqb kind "StatefulSet" then
    r ← convertFrom StatefulSet;
    match r with
    | inl err => mret (Some err)
    | inr ss =>
        let podSpec := applyMinVersionEnvVar (Spec_Template_Spec ss) minVersionEnv in
        err ← convertTo StatefulSet (withPodSpec ss podSpec);
        match err with Some err => mret (Some err) | None => afterSwitch end
    end
  else if String.eqb kind "DaemonSet" then
    r ← convertFrom DaemonSet;
    match r with
    | inl err => mret (Some err)
    | inr ds =>
        let podSpec := applyMinVersionEnvVar (Spec_Template_Spec ds) minVersionEnv in
        err ← convertTo DaemonSet (withPodSpec ds podSpec);
        match err with Some err => mret (Some err) | None => afterSwitch end
    end
  else if String.eqb kind "Job" then
    r ← convertFrom Job;
    match r with
    | inl err => mret (Some err)
    | inr job =>
        let podSpec := applyMinVersionEnvVar (Spec_Template_Spec job) minVersionEnv in
        err ← convertTo Job (withPodSpec job podSpec);
        match err with Some err => mret (Some err) | None => afterSwitch end
    end
  else mret None.

(** [version.KubernetesMinVersionKey] of knative.dev/pkg, the name the doc
    comment of the factory gives. *)
Definition KubernetesMinVersionKey : string := "KUBERNETES_MIN_VERSION".

(** The slice [minVersionEnv] of the factory: the override, alone. *)
Definition minVersionEnv (minVersion : string) : list EnvVar :=
  [{| Name := KubernetesMinVersionKey; Value := minVersion |}].

(** [KubernetesMinVersionTransform]; [getenv] is [os.Getenv], read once when
    the transformer is built. *)
Definition KubernetesMinVersionTransform (getenv : string → string) : Transformer :=
  let minVersion := getenv KubernetesMinVersionKey in
  if String.eqb minVersion "" then
    λ h, (None, h)
  else
    enabledTransform (minVersionEnv minVersion).

(** The error of [podSpecFromResource]: one returned by [Convert], or the
    [fmt.Errorf] of the default case. *)
Inductive ResourceError :=
  | ConvertError (err : Error)
  | UnsupportedKind (kind : string).

(** [podSpecFromResource] of the test file. *)
Definition podSpecFromResource (u : Unstructured) : ResourceError + PodSpec :=
  let kind := GetKind u in
  if String.eqb kind "Deployment" then
    match ConvertFrom Deployment u with
    | inl err => inl (ConvertError err)
    | inr d => inr (Spec_Template_Spec d)
    end
  else if String.eqb kind "StatefulSet" then
    match ConvertFrom StatefulSet u with
    | inl err => inl (ConvertError err)
    | inr s => inr (Spec_Template_Spec s)
    end
  else if String.eqb kind "DaemonSet" then
    match ConvertFrom DaemonSet u with
    | inl err => inl (ConvertError err)
    | inr d => inr (Spec_Template_Spec d)
    end
  else if String.eqb kind "Job" then
    match ConvertFrom Job u with
    | inl err => inl (ConvertError err)
    | inr j => inr (Spec_Template_Spec j)
    end
  else inl (UnsupportedKind kind).

(** The kind a [GetKind] result selects in the [switch], if any. *)
Definition supportedKind (kind : string) : option Kind :=
  if String.eqb kind "Deployment" then Some Deployment
  else if String.eqb kind "StatefulSet" then Some StatefulSet
  else if String.eqb kind "DaemonSet" then Some DaemonSet
  else if String.eqb kind "Job" then Some Job
  else None.

(** The kinds the [switch] has a case for. *)
Definition supportedKinds : list string :=
  kindName <$> [Deployment; StatefulSet; DaemonSet; Job].

(** The typed object a matched case hands to the encoder. *)
Definition injected (minVersionEnv : list EnvVar) (w : Workload) : Workload :=
  withPodSpec w (applyMinVersionEnvVar (Spec_Template_Spec w) minVersionEnv).

End Transformer.

Arguments Handle : clear implicits.

(** ** What is assumed of the codec

    Section 6 of the specification asks of the document handle a reversible
    decode/encode pair per supported kind, and section 7 expects encode to
    be all-or-nothing. The statements that depend on the codec name the
    laws they use. *)

Section CodecLaws.

Context (Unstructured Error : Type) `{!Scheme Unstructured Error}.

(** Decoding what was encoded gives the typed object back, under the kind it
    was encoded at; the timestamp setter changes that one metadata field. *)
Class ReversibleCodec : Prop := {
  encode_decode k w u u' :
    ConvertTo k w u = (None, u') → ConvertFrom k u' = inr w;
  encode_kind k w u u' :
    ConvertTo k w u = (None, u') → GetKind u' = kindName k;
  timestamp_kind t u :
    GetKind (SetCreationTimestamp t u) = GetKind u;
  timestamp_decode k t u :
    ConvertFrom k (SetCreationTimestamp t u)
    = sum_map id (withCreationTimestamp t) (ConvertFrom k u)
}.

(** A failed encode leaves the contents of the handle as they were. *)
Class AtomicEncode : Prop :=
  encode_all_or_nothing k w u err u' :
    ConvertTo k w u = (Some err, u') → u' = u.

(** A successful encode replaces the whole contents of the handle, so its
    outcome does not depend on what the handle held, and a creation
    timestamp it writes is the only trace of the typed one. *)
Class OverwritingEncode : Prop := {
  encode_overwrites k w u u' u0 :
    ConvertTo k w u = (None, u') → ConvertTo k w u0 = (None, u');
  encode_timestamp k w u u' :
    ConvertTo k w u = (None, u') →
    ∃ u'', ConvertTo k (withCreationTimestamp None w) u = (None, u'')
           ∧ SetCreationTimestamp None u'' = SetCreationTimestamp None u'
}.

End CodecLaws.

Arguments encode_decode {Unstructured Error _ _} k w u u' _.
Arguments encode_kind {Unstructured Error _ _} k w u u' _.
Arguments timestamp_kind {Unstructured Error _ _} t u.
Arguments timestamp_decode {Unstructured Error _ _} k t u.
Arguments encode_all_or_nothing {Unstructured Error _ _} k w u err u' _.
Arguments encode_overwrites {Unstructured Error _ _} k w u u' u0 _.
Arguments encode_timestamp {Unstructured Error _ _} k w u u' _.

(** ** A small document model for the scenarios of the tests *)

Module Sample.

(** A document: its kind, the typed object its contents decode to ([None]
    when they do not match the typed shape), and the fields the typed shape
    has no place for. *)
Record Document := {
  docKind : string;
  docTyped : option Workload;
  docUnknown : OtherFields
}.

Definition malformed : string := "unable to convert unstructured object".

Definition scheme : Scheme Document string := {|
  GetKind := docKind;
  ConvertFrom := λ _ d,
    match docTyped d with Some w => inr w | None => inl malformed end;
  ConvertTo := λ k w _,
    (None, {| docKind := kindName k; docTyped := Some w; docUnknown := [] |});
  SetCreationTimestamp := λ t d,
    {| docKind := docKind d;
       docTyped := withCreationTimestamp t <$> docTyped d;
       docUnknown := docUnknown d |}
|}.

Definition container (name : string) (env : list EnvVar) : Container :=
  {| ContainerName := name; Env := env; ContainerOther := [] |}.

(** [makePodSpec] of [TestKubernetesMinVersionTransformInjectsEnvVar]. *)
Definition makePodSpec : PodSpec := {|
  Containers :=
    [ container "controller"
        [ {| Name := "EXISTING"; Value := "1" |};
          {| Name := KubernetesMinVersionKey; Value := "v1.20.0" |} ];
      container "webhook" [] ];
  InitContainers :=
    [ container "init-a" [];
      container "init-b"
        [ {| Name := KubernetesMinVersionKey; Value := "v1.19.0" |} ] ];
  PodSpecOther := []
|}.

Definition workload (name : string) (created : Time) (podSpec : PodSpec) : Workload :=
  {| Meta := {| ObjectName := name; Namespace := "knative-serving";
                CreationTimestamp := created; MetaOther := [] |};
     Spec_Template_Spec := podSpec;
     WorkloadOther := [] |}.

Definition document (kind : string) (w : Workload) : Document :=
  {| docKind := kind; docTyped := Some w; docUnknown := [] |}.

(** The controller Deployment of the tests. *)
Definition controller : Document :=
  document "Deployment" (workload "controller" None makePodSpec).

(** The controller Deployment with one more top-level field, which the
    typed shape has no place for. *)
Definition annotated : Document :=
  {| docKind := "Deployment";
     docTyped := Some (workload "controller" None makePodSpec);
     docUnknown := [("bogusField", "x")] |}.

(** A Deployment whose contents do not match the typed shape. *)
Definition broken : Document :=
  {| docKind := "Deployment"; docTyped := None; docUnknown := [] |}.

(** A ConfigMap, with a creation timestamp. *)
Definition configMap : Document :=
  {| docKind := "ConfigMap"; docTyped := None;
     docUnknown := [("metadata.creationTimestamp", "2026-01-01T00:00:00Z")] |}.

(** A Job with an empty pod template and a creation timestamp. *)
Definition emptyJob : Document :=
  document "Job"
    (workload "migrate" (Some "2026-01-01T00:00:00Z")
       {| Containers := []; InitContainers := []; PodSpecOther := [] |}).

(** The process environment with the override set to [v], and unset. *)
Definition setenv (v : string) : string → string :=
  λ key, if String.eqb key KubernetesMinVersionKey then v else "".

Definition unsetenv : string → string := λ _, "".

(** Two overrides of one name, as an override list may hold them. *)
Definition twice : list EnvVar :=
  [ {| Name := "A"; Value := "1" |}; {| Name := "A"; Value := "2" |} ].

Definition fresh (d : Document) : Handle Document :=
  {| Object := d; Calls := [] |}.

End Sample.

(** ** Properties of the merge *)

Section MergeFacts.

Implicit Types (o e : EnvVar) (src tgt l : list EnvVar).

Lemma findFirst_Some name l i e :
  findFirst name l = Some (i, e) →
  ∃ l1 l2, l = l1 ++ e :: l2 ∧ length l1 = i ∧ Name e = name
           ∧ Forall (λ x, Name x ≠ name) l1.
Proof.
  unfold findFirst. intros (Hi & He & Hleast)%list_find_Some.
  exists (take i l), (drop (S i) l). split_and!.
  - by rewrite <-(take_drop_middle l i e) at 1.
  - rewrite length_take. apply lookup_lt_Some in Hi. lia.
  - done.
  - apply Forall_lookup. intros j x Hx.
    pose proof (lookup_lt_Some _ _ _ Hx) as Hlt. rewrite length_take in Hlt.
    rewrite lookup_take_lt in Hx by lia. eapply Hleast; [done | lia].
Qed.

Lemma findFirst_None name l :
  findFirst name l = None ↔ Forall (λ x, Name x ≠ name) l.
Proof. unfold findFirst. apply list_find_None. Qed.

Lemma mergeOne_step l o : MergeStep o l (mergeOne l o).
Proof.
  unfold mergeOne. destruct (findFirst (Name o) l) as [[i e]|] eqn:Hf.
  - apply findFirst_Some in Hf as (l1 & l2 & -> & <- & He & Hl1).
    rewrite insert_app_r_alt, Nat.sub_diag by lia. simpl.
    by constructor.
  - apply step_append. by apply findFirst_None.
Qed.

Lemma foldl_mergeOne_all src tgt : MergeAll src tgt (foldl mergeOne tgt src).
Proof.
  revert tgt. induction src as [|o src IH]; intros tgt; simpl.
  - constructor.
  - econstructor; [apply mergeOne_step | apply IH].
Qed.

(** The rule determines the result: the relation is the graph of
    [mergeOne]. *)
Lemma MergeStep_mergeOne o l l' : MergeStep o l l' → l' = mergeOne l o.
Proof.
  intros [l1 e l2 He Hl1 | l0 Hl]; unfold mergeOne.
  - assert (findFirst (Name o) (l1 ++ e :: l2) = Some (length l1, e)) as ->.
    { apply list_find_Some. split_and!.
      - by rewrite list_lookup_middle.
      - done.
      - intros j y Hj Hlt. rewrite lookup_app_l in Hj by done.
        by apply (Forall_lookup_1 _ _ _ _ Hl1 Hj). }
    by rewrite insert_app_r_alt, Nat.sub_diag by lia.
  - by apply findFirst_None in Hl as ->.
Qed.

Lemma MergeAll_foldl src tgt r : MergeAll src tgt r → r = foldl mergeOne tgt src.
Proof.
  induction 1 as [|o os t t' t'' Hstep _ IH]; simpl; [done|].
  by apply MergeStep_mergeOne in Hstep as <-.
Qed.

(** Overrides with pairwise distinct names, none of them in the target, are
    all appended. *)
Lemma MergeAll_fresh src tgt :
  NoDup (Name <$> src) →
  Forall (λ x, Name x ∉ Name <$> src) tgt →
  MergeAll src tgt (tgt ++ src).
Proof.
  revert tgt. induction src as [|o os IH]; intros tgt Hnd Hfresh.
  - rewrite app_nil_r. constructor.
  - rewrite fmap_cons in Hnd. apply NoDup_cons in Hnd as [Ho Hnd].
    apply all_cons with (tgt ++ [o]).
    + apply step_append. eapply Forall_impl; [exact Hfresh|].
      intros x Hx Heq. apply Hx. rewrite fmap_cons, Heq. left.
    + replace (tgt ++ o :: os) with ((tgt ++ [o]) ++ os)
        by (by rewrite <-app_assoc).
      apply IH; [done|]. apply Forall_app. split.
      * eapply Forall_impl; [exact Hfresh|].
        intros x Hx Hin. apply Hx. rewrite fmap_cons. by right.
      * by apply Forall_singleton.
Qed.

(** Names stay pairwise distinct under the rule: a replacement keeps the
    names, and an appended name was absent. *)
Lemma MergeStep_NoDup o l l' :
  MergeStep o l l' → NoDup (Name <$> l) → NoDup (Name <$> l').
Proof.
  intros [l1 e l2 He Hl1 | l0 Hl] Hnd.
  - by rewrite fmap_app, fmap_cons in Hnd |- *.
  - rewrite fmap_app. apply NoDup_app. split_and!; [done | | apply NoDup_singleton].
    intros n (x & -> & Hx)%list_elem_of_fmap Hn%list_elem_of_singleton.
    by apply (proj1 (Forall_forall _ _) Hl x Hx).
Qed.

Lemma MergeAll_NoDup src tgt r :
  MergeAll src tgt r → NoDup (Name <$> tgt) → NoDup (Name <$> r).
Proof.
  induction 1 as [|o os t t' t'' Hstep _ IH]; [done|].
  intros Hnd. by apply IH, (MergeStep_NoDup o t).
Qed.

(** *** What one step leaves alone *)

Lemma MergeStep_filter (Q : string → Prop) `{!∀ n, Decision (Q n)} o l l' :
  MergeStep o l l' → ¬ Q (Name o) →
  filter (λ e, Q (Name e)) l' = filter (λ e, Q (Name e)) l.
Proof.
  intros [l1 e l2 He Hl1 | l0 Hl] HQ.
  - rewrite !filter_app, !filter_cons. simpl.
    destruct (decide (Q (Name e))) as [HQe|_]; [|done].
    by rewrite He in HQe.
  - rewrite filter_app, filter_cons, filter_nil.
    rewrite decide_False by done. by rewrite app_nil_r.
Qed.

Lemma MergeStep_lookup o l l' i e :
  MergeStep o l l' → l !! i = Some e →
  ∃ e', l' !! i = Some e' ∧ Name e' = Name e ∧ (Name e ≠ Name o → e' = e).
Proof.
  intros [l1 e0 l2 He Hl1 | l0 Hl] Hi.
  - destruct (decide (i = length l1)) as [->|Hne].
    + rewrite list_lookup_middle in Hi by done. injection Hi as <-.
      eexists. rewrite list_lookup_middle by done.
      split_and!; [done | done | by intros []].
    + exists e. split_and!; [|done..].
      destruct (decide (i < length l1)).
      * rewrite lookup_app_l in Hi |- * by done. done.
      * rewrite lookup_app_r in Hi |- * by lia.
        destruct (i - length l1) as [|k] eqn:Hk; [lia | done].
  - exists e. split_and!; [|done..]. by apply lookup_app_l_Some.
Qed.

Lemma MergeStep_names o l l' :
  MergeStep o l l' →
  (Name <$> l' = Name <$> l ∧ Name o ∈ Name <$> l)
  ∨ (l' = l ++ [o] ∧ Name o ∉ Name <$> l).
Proof.
  intros [l1 e l2 He Hl1 | l0 Hl].
  - left. split.
    + by rewrite !fmap_app, !fmap_cons.
    + rewrite <-He. apply list_elem_of_fmap_2, elem_of_app. right. left.
  - right. split; [done|]. intros (x & Hx & Hin)%list_elem_of_fmap.
    by apply (proj1 (Forall_forall _ _) Hl x Hin).
Qed.

Lemma filter_none {A} (P : A → Prop) `{!∀ x, Decision (P x)} (l : list A) :
  Forall (λ x, ¬ P x) l → filter P l = [].
Proof.
  induction 1 as [|x l Hx _ IH]; [done|].
  by rewrite filter_cons, decide_False.
Qed.

Lemma filter_all {A} (P : A → Prop) `{!∀ x, Decision (P x)} (l : list A) :
  Forall P l → filter P l = l.
Proof.
  induction 1 as [|x l Hx _ IH]; [done|].
  by rewrite filter_cons, decide_True, IH.
Qed.

Lemma length_filter_mono {A} (P P' : A → Prop)
    `{!∀ x, Decision (P x)} `{!∀ x, Decision (P' x)} (l : list A) :
  (∀ x, P' x → P x) → length (filter P' l) ≤ length (filter P l).
Proof.
  intros Himp. induction l as [|x l IH]; [done|].
  rewrite !filter_cons.
  destruct (decide (P' x)) as [HP'|]; destruct (decide (P x)) as [|HnP];
    simpl; try lia.
  destruct HnP. by apply Himp.
Qed.

(** *** What a whole merge leaves alone *)

Lemma MergeAll_filter_gen (Q : string → Prop) `{!∀ n, Decision (Q n)} src tgt r :
  MergeAll src tgt r →
  Forall (λ o, ¬ Q (Name o)) src →
  filter (λ e, Q (Name e)) r = filter (λ e, Q (Name e)) tgt.
Proof.
  induction 1 as [|o os t t' t'' Hstep _ IH]; intros Hsrc; [done|].
  apply Forall_cons in Hsrc as [Ho Hos].
  rewrite IH by done. by apply (MergeStep_filter Q o).
Qed.

Lemma MergeAll_filter src tgt r :
  MergeAll src tgt r →
  filter (λ e, Name e ∉ Name <$> src) r = filter (λ e, Name e ∉ Name <$> src) tgt.
Proof.
  intros H. refine (MergeAll_filter_gen (λ n, n ∉ Name <$> src) src tgt r H _).
  apply Forall_forall. intros o Ho Hnot. apply Hnot.
  by apply list_elem_of_fmap_2.
Qed.

Lemma MergeAll_lookup src tgt r i e :
  MergeAll src tgt r → tgt !! i = Some e →
  ∃ e', r !! i = Some e' ∧ Name e' = Name e
        ∧ (Name e ∉ Name <$> src → e' = e).
Proof.
  intros H. revert e. induction H as [|o os t t' t'' Hstep _ IH]; intros e Hi.
  - exists e. by split_and!.
  - destruct (MergeStep_lookup _ _ _ _ _ Hstep Hi) as (e1 & Hi1 & Hn1 & Hsame1).
    destruct (IH _ Hi1) as (e2 & Hi2 & Hn2 & Hsame2).
    exists e2. split_and!; [done | congruence |].
    rewrite fmap_cons. intros Hnot.
    rewrite Hsame2, Hsame1; [done | |].
    + intros Heq. apply Hnot. rewrite Heq. left.
    + rewrite Hn1. intros Hin. apply Hnot. by right.
Qed.

Lemma MergeAll_length src tgt r :
  MergeAll src tgt r →
  length tgt ≤ length r
  ≤ length tgt + length (filter (λ o, Name o ∉ Name <$> tgt) src).
Proof.
  induction 1 as [|o os t t' t'' Hstep _ IH]; [simpl; lia|].
  rewrite filter_cons.
  destruct (MergeStep_names _ _ _ Hstep) as [[Hnames Hin] | [-> Hnotin]].
  - assert (length t' = length t) as Hlen.
    { by rewrite <-(length_fmap Name t'), Hnames, length_fmap. }
    rewrite decide_False by (by intros []).
    rewrite Hnames, Hlen in IH. done.
  - rewrite decide_True by done. rewrite length_app in IH. simpl in *.
    assert (length (filter (λ x, Name x ∉ Name <$> (t ++ [o])) os)
            ≤ length (filter (λ x, Name x ∉ Name <$> t) os)) as Hm.
    { apply length_filter_mono. intros x Hx Hin. apply Hx.
      rewrite fmap_app. apply elem_of_app. by left. }
    lia.
Qed.

(** *** A single override, as the transformer passes it *)

Lemma hasEnv_skip l1 l2 name value :
  Forall (λ x, Name x ≠ name) l1 →
  hasEnv (l1 ++ l2) name value = hasEnv l2 name value.
Proof.
  induction 1 as [|x l1 Hx _ IH]; simpl; [done|].
  by apply String.eqb_neq in Hx as ->.
Qed.

Lemma MergeStep_hasEnv o l l' :
  MergeStep o l l' → hasEnv l' (Name o) (Value o) = true.
Proof.
  intros [l1 e l2 He Hl1 | l0 Hl]; rewrite hasEnv_skip by done; simpl.
  - rewrite He, String.eqb_refl. apply String.eqb_refl.
  - rewrite String.eqb_refl. apply String.eqb_refl.
Qed.

Lemma MergeStep_again o l l' : MergeStep o l l' → MergeStep o l' l'.
Proof.
  intros [l1 e l2 He Hl1 | l0 Hl].
  - by apply (step_replace o l1 {| Name := Name e; Value := Value o |} l2).
  - assert (MergeStep o (l0 ++ [o])
              (l0 ++ [{| Name := Name o; Value := Value o |}])) as Hs
      by (by apply step_replace).
    by destruct o.
Qed.

Lemma mergeOne_not_nil l o : mergeOne l o ≠ [].
Proof.
  destruct (mergeOne_step l o) as [l1 e l2 _ _ | l0 _]; by destruct l1 || destruct l0.
Qed.

Lemma mergeEnv_single o tgt :
  mergeEnv [o] tgt = match tgt with [] => [o] | _ :: _ => mergeOne tgt o end.
Proof. by destruct tgt. Qed.

Lemma mergeEnv_single_hasEnv o tgt :
  hasEnv (mergeEnv [o] tgt) (Name o) (Value o) = true.
Proof.
  rewrite mergeEnv_single. destruct tgt as [|e tgt].
  - simpl. rewrite String.eqb_refl. apply String.eqb_refl.
  - eapply MergeStep_hasEnv, mergeOne_step.
Qed.

Lemma mergeEnv_single_idem o tgt :
  mergeEnv [o] (mergeEnv [o] tgt) = mergeEnv [o] tgt.
Proof.
  rewrite (mergeEnv_single o tgt). destruct tgt as [|e tgt].
  - simpl. unfold mergeOne, findFirst. simpl.
    rewrite decide_True by done. by destruct o.
  - rewrite mergeEnv_single.
    destruct (mergeOne (e :: tgt) o) as [|e' r] eqn:Hr.
    { by apply mergeOne_not_nil in Hr. }
    rewrite <-Hr. symmetry.
    apply MergeStep_mergeOne, (MergeStep_again o (e :: tgt)), mergeOne_step.
Qed.

End MergeFacts.

(** ** The merge contract *)

(** C4, as stated, at the overrides [Sample.twice] and the empty target: the
    per-override rule (append the first, replace its value by the second,
    one entry in all) and "the result is exactly the override list" (two
    entries) cannot both hold. *)
Lemma mergeEnv_rule_conflict :
  ¬ (MergeAll Sample.twice [] (mergeEnv Sample.twice [])
     ∧ mergeEnv Sample.twice [] = Sample.twice).
Proof.
  intros [Hrule Hlist]. apply MergeAll_foldl in Hrule.
  rewrite Hlist in Hrule. discriminate Hrule.
Qed.

(** C4, amended: [mergeEnv] follows the rule override by override, in
    order (the first entry of the override's name has its value replaced
    where it stands, entries after it untouched, and an override whose name
    is absent is appended at the end) exactly when the target is not empty
    or the override names are pairwise distinct; and for an empty target the
    result is the override list, in order. *)
Theorem mergeEnv_rule (src tgt : list EnvVar) :
  (MergeAll src tgt (mergeEnv src tgt) ↔ tgt ≠ [] ∨ NoDup (Name <$> src))
  ∧ (tgt = [] → mergeEnv src tgt = src).
Proof.
  split; [|by intros ->]. split.
  - destruct tgt as [|e tgt]; [|by left]. simpl. intros Hall. right.
    apply (MergeAll_NoDup src [] src Hall). constructor.
  - intros H. destruct tgt as [|e tgt].
    + destruct H as [H|H]; [done|]. simpl.
      by apply (MergeAll_fresh src []).
    + apply foldl_mergeOne_all.
Qed.

Lemma mergeEnv_rule_witness :
  let src := [ {| Name := KubernetesMinVersionKey; Value := "v1.25.0" |} ] in
  let tgt := [ {| Name := "EXISTING"; Value := "1" |};
               {| Name := KubernetesMinVersionKey; Value := "v1.20.0" |} ] in
  MergeAll src tgt (mergeEnv src tgt).
Proof. intros src tgt. apply (mergeEnv_rule src tgt). by left. Defined.

(** C5: after [mergeEnv], the entries whose name is not an override name
    are the same entries in the same order; every position of the target
    still holds an entry of the same name, the very same entry when its name
    is not an override name, so nothing is removed; and the list grows by at
    most the number of overrides whose name did not occur in the target. *)
Theorem mergeEnv_frame (src tgt : list EnvVar) :
  filter (λ e, Name e ∉ Name <$> src) (mergeEnv src tgt)
    = filter (λ e, Name e ∉ Name <$> src) tgt
  ∧ (∀ i e, tgt !! i = Some e →
       ∃ e', mergeEnv src tgt !! i = Some e' ∧ Name e' = Name e
             ∧ (Name e ∉ Name <$> src → e' = e))
  ∧ length tgt ≤ length (mergeEnv src tgt)
    ≤ length tgt + length (filter (λ o, Name o ∉ Name <$> tgt) src).
Proof.
  destruct tgt as [|e0 tgt].
  - simpl. split_and!.
    + rewrite filter_nil. apply filter_none, Forall_forall.
      intros o Ho Hnot. by apply Hnot, list_elem_of_fmap_2.
    + intros i e Hi. by rewrite lookup_nil in Hi.
    + lia.
    + rewrite filter_all; [done|]. apply Forall_forall.
      intros o _. apply not_elem_of_nil.
  - pose proof (foldl_mergeOne_all src (e0 :: tgt)) as Hall.
    change (mergeEnv src (e0 :: tgt)) with (foldl mergeOne (e0 :: tgt) src).
    split_and!.
    + by apply MergeAll_filter.
    + intros i e. by apply MergeAll_lookup.
    + by apply (MergeAll_length src).
    + by apply (MergeAll_length src).
Qed.

(** ** The transformer *)

Section TransformerFacts.

Context {Unstructured Error : Type} `{!Scheme Unstructured Error}.

Implicit Types (h : Handle Unstructured) (w : Workload) (k : Kind).

Lemma supportedKind_name kind k : supportedKind kind = Some k → kind = kindName k.
Proof.
  unfold supportedKind.
  repeat match goal with
  | |- context [String.eqb kind ?s] =>
      destruct (String.eqb_spec kind s) as [->|_]; [by intros [= <-]|]
  end.
  done.
Qed.

Lemma supportedKind_kindName k : supportedKind (kindName k) = Some k.
Proof. by destruct k. Qed.

(** The matched cases of the [switch], all four of one shape. *)
Lemma enabled_supported env h k :
  supportedKind (GetKind (Object h)) = Some k →
  enabledTransform env h =
    match ConvertFrom k (Object h) with
    | inl err =>
        (Some err,
         {| Object := Object h;
            Calls := Calls h ++ [GetKindCall; DecodeCall k] |})
    | inr w =>
        match ConvertTo k (injected env w) (Object h) with
        | (Some err, u) =>
            (Some err,
             {| Object := u;
                Calls := Calls h ++ [GetKindCall; DecodeCall k;
                                     EncodeCall k (injected env w)] |})
        | (None, u) =>
            (None,
             {| Object := SetCreationTimestamp None u;
                Calls := Calls h ++ [GetKindCall; DecodeCall k;
                                     EncodeCall k (injected env w);
                                     SetCreationTimestampCall None] |})
        end
    end.
Proof.
  intros Hk. apply supportedKind_name in Hk.
  unfold enabledTransform, afterSwitch, mbind, M_bind, mret, M_ret,
    getKind, convertFrom, convertTo, setCreationTimestamp, logged, injected.
  simpl. rewrite Hk.
  destruct k; simpl;
    (destruct (ConvertFrom _ (Object h)) as [err|w]; simpl;
     [by rewrite <-app_assoc|]);
    (destruct (ConvertTo _ _ (Object h)) as [[err|] u]; simpl;
     by rewrite <-!app_assoc).
Qed.

(** The default case. *)
Lemma enabled_unsupported env h :
  supportedKind (GetKind (Object h)) = None →
  enabledTransform env h =
    (None, {| Object := Object h; Calls := Calls h ++ [GetKindCall] |}).
Proof.
  unfold supportedKind, enabledTransform, mbind, M_bind, getKind. simpl.
  repeat (destruct (String.eqb (GetKind (Object h)) _); [done|]).
  done.
Qed.

Lemma transform_disabled getenv h :
  getenv KubernetesMinVersionKey = "" →
  KubernetesMinVersionTransform getenv h = (None, h).
Proof. unfold KubernetesMinVersionTransform. by intros ->. Qed.

Lemma transform_enabled getenv h :
  getenv KubernetesMinVersionKey ≠ "" →
  KubernetesMinVersionTransform getenv h =
    enabledTransform (minVersionEnv (getenv KubernetesMinVersionKey)) h.
Proof.
  unfold KubernetesMinVersionTransform. by intros ->%String.eqb_neq.
Qed.

(** *** The typed object after injection *)

Lemma injected_timestamp env t w :
  injected env (withCreationTimestamp t w) = withCreationTimestamp t (injected env w).
Proof. done. Qed.

Lemma injected_outsideEnv env w : outsideEnv (injected env w) = outsideEnv w.
Proof.
  unfold outsideEnv, injected, withPodSpec, applyMinVersionEnvVar. simpl.
  by rewrite <-!list_fmap_compose.
Qed.

Lemma injected_idem o w : injected [o] (injected [o] w) = injected [o] w.
Proof.
  unfold injected, withPodSpec, applyMinVersionEnvVar. simpl.
  rewrite <-!list_fmap_compose. do 2 f_equal.
  all: apply list_fmap_ext; intros _ c _; unfold withEnv; simpl.
  all: by rewrite mergeEnv_single_idem.
Qed.

Lemma injected_hasEnv o w :
  Forall (λ c, hasEnv (Env c) (Name o) (Value o) = true)
    (Containers (Spec_Template_Spec (injected [o] w))
     ++ InitContainers (Spec_Template_Spec (injected [o] w))).
Proof.
  simpl. apply Forall_app. split; apply Forall_fmap, Forall_forall;
    intros c _; simpl; apply mergeEnv_single_hasEnv.
Qed.

Lemma supportedKind_None kind :
  kind ∉ supportedKinds → supportedKind kind = None.
Proof.
  intros Hnot. destruct (supportedKind kind) as [k|] eqn:Hk; [|done].
  apply supportedKind_name in Hk as ->. destruct Hnot.
  apply list_elem_of_fmap_2. destruct k; repeat constructor.
Qed.

Lemma podSpecFromResource_supported (u : Unstructured) k :
  GetKind u = kindName k →
  podSpecFromResource u =
    match ConvertFrom k u with
    | inl err => inl (ConvertError err)
    | inr w => inr (Spec_Template_Spec w)
    end.
Proof. unfold podSpecFromResource. intros ->. by destruct k. Qed.

Lemma injected_empty env w :
  Containers (Spec_Template_Spec w) = [] →
  InitContainers (Spec_Template_Spec w) = [] →
  injected env w = w.
Proof.
  destruct w as [m [cs ics other] rest]. simpl. by intros -> ->.
Qed.

Lemma outsideEnv_timestamp t w :
  outsideEnv (withCreationTimestamp t w) = withCreationTimestamp t (outsideEnv w).
Proof. done. Qed.

End TransformerFacts.

(** ** What the transformer guarantees *)

Section TransformerClaims.

Context {Unstructured Error : Type} `{!Scheme Unstructured Error}.

Implicit Types (h : Handle Unstructured) (w : Workload) (k : Kind).
Implicit Types (getenv : string → string).

(** C1: an enabled transformer that returns success on a Deployment,
    StatefulSet, DaemonSet or Job has decoded the document, encoded back the
    decoded object after injection and reset the timestamp. The object
    written back has as many containers and init containers as the decoded
    one; the container at each position keeps its name, and the first entry
    of its environment named by the override carries the configured value,
    whatever that name resolved to before; so does every container and init
    container of the object written back; and with a reversible codec that
    pod template is the one [podSpecFromResource] reads from the resulting
    document, as the tests do. *)
Theorem enabled_injects_override getenv h k h' :
  getenv KubernetesMinVersionKey ≠ "" →
  GetKind (Object h) = kindName k →
  KubernetesMinVersionTransform getenv h = (None, h') →
  ∃ w u,
    let w' := injected (minVersionEnv (getenv KubernetesMinVersionKey)) w in
    let resolves := λ c : Container,
      hasEnv (Env c) KubernetesMinVersionKey
        (getenv KubernetesMinVersionKey) = true in
    ConvertFrom k (Object h) = inr w
    ∧ ConvertTo k w' (Object h) = (None, u)
    ∧ Object h' = SetCreationTimestamp None u
    ∧ length (Containers (Spec_Template_Spec w'))
      = length (Containers (Spec_Template_Spec w))
    ∧ length (InitContainers (Spec_Template_Spec w'))
      = length (InitContainers (Spec_Template_Spec w))
    ∧ (∀ i c, Containers (Spec_Template_Spec w) !! i = Some c →
         ∃ c', Containers (Spec_Template_Spec w') !! i = Some c'
               ∧ ContainerName c' = ContainerName c ∧ resolves c')
    ∧ (∀ i c, InitContainers (Spec_Template_Spec w) !! i = Some c →
         ∃ c', InitContainers (Spec_Template_Spec w') !! i = Some c'
               ∧ ContainerName c' = ContainerName c ∧ resolves c')
    ∧ Forall resolves
        (Containers (Spec_Template_Spec w')
         ++ InitContainers (Spec_Template_Spec w'))
    ∧ (ReversibleCodec Unstructured Error →
       podSpecFromResource (Object h') = inr (Spec_Template_Spec w')).
Proof.
  intros Hon Hkind Hrun. rewrite transform_enabled in Hrun by done.
  rewrite (enabled_supported _ _ k) in Hrun
    by (rewrite Hkind; apply supportedKind_kindName).
  destruct (ConvertFrom k (Object h)) as [err|w] eqn:Hdec; [done|].
  destruct (ConvertTo k _ (Object h)) as [[err|] u] eqn:Henc; [done|].
  injection Hrun as <-. exists w, u. simpl.
  pose proof (injected_hasEnv
    {| Name := KubernetesMinVersionKey;
       Value := getenv KubernetesMinVersionKey |} w) as Hall.
  split_and!; [done | done | done | apply length_fmap | apply length_fmap
              | | | exact Hall | ].
  - intros i c Hi. rewrite list_lookup_fmap, Hi. simpl.
    eexists. split_and!; [done..|]. apply mergeEnv_single_hasEnv.
  - intros i c Hi. rewrite list_lookup_fmap, Hi. simpl.
    eexists. split_and!; [done..|]. apply mergeEnv_single_hasEnv.
  - intros Hcodec. rewrite (podSpecFromResource_supported _ k).
    + by rewrite timestamp_decode, (encode_decode _ _ _ _ Henc).
    + rewrite timestamp_kind. apply (encode_kind _ _ _ _ Henc).
Qed.

(** C2: the transformer built when the override value is empty returns
    success on every document of every kind and leaves the handle as it was:
    same contents, hence the same kind and the same decoding at every kind,
    and no call made. *)
Theorem disabled_is_noop getenv h :
  getenv KubernetesMinVersionKey = "" →
  let '(err, h') := KubernetesMinVersionTransform getenv h in
  err = None ∧ h' = h
  ∧ GetKind (Object h') = GetKind (Object h)
  ∧ ∀ k, ConvertFrom k (Object h') = ConvertFrom k (Object h).
Proof. intros Hoff. by rewrite transform_disabled. Qed.

(** C7: on a document whose kind is none of the four, the transformer,
    enabled or not, returns success and leaves the contents of the document,
    creation timestamp included, as they were; the only call it can make on
    the handle is [GetKind]: no decode, no encode, no timestamp reset. *)
Theorem unsupported_kind_passthrough getenv h :
  GetKind (Object h) ∉ supportedKinds →
  let '(err, h') := KubernetesMinVersionTransform getenv h in
  err = None ∧ Object h' = Object h
  ∧ ∃ calls, Calls h' = Calls h ++ calls ∧ Forall (λ c, c = GetKindCall) calls.
Proof.
  intros Hkind%supportedKind_None.
  destruct (decide (getenv KubernetesMinVersionKey = "")) as [Hoff|Hon].
  - rewrite transform_disabled by done. split_and!; [done..|].
    exists []. by rewrite app_nil_r.
  - rewrite transform_enabled, enabled_unsupported by done.
    split_and!; [done..|]. exists [GetKindCall]. split; [done|].
    by apply Forall_singleton.
Qed.

(** C9: the transformer built when the override value is empty makes no
    call on the handle, whatever the document, and returns success; so it
    does on a document of a supported kind that does not decode, on which
    every enabled transformer returns the decoding error. *)
Theorem disabled_never_inspects getenv :
  getenv KubernetesMinVersionKey = "" →
  (∀ h, let '(err, h') := KubernetesMinVersionTransform getenv h in
        err = None ∧ Calls h' = Calls h)
  ∧ (∀ getenv' h k err,
       getenv' KubernetesMinVersionKey ≠ "" →
       GetKind (Object h) = kindName k →
       ConvertFrom k (Object h) = inl err →
       fst (KubernetesMinVersionTransform getenv' h) = Some err
       ∧ fst (KubernetesMinVersionTransform getenv h) = None).
Proof.
  intros Hoff. split.
  - intros h. by rewrite transform_disabled.
  - intros getenv' h k err Hon Hkind Hdec.
    rewrite (transform_disabled getenv) by done.
    rewrite (transform_enabled getenv') by done.
    rewrite (enabled_supported _ _ k)
      by (rewrite Hkind; apply supportedKind_kindName).
    by rewrite Hdec.
Qed.

(** C6: when the transformer returns an error, the document's kind is one
    of the four and either the decode failed, in which case the calls made
    are [GetKind] and the decode, no encode, and the contents of the document
    are as provided; or the encode of the injected object failed, in which
    case the transformer returns at once, the contents are what that encode
    call left, and with an all-or-nothing encode they are as provided. *)
Theorem error_leaves_document getenv h err h' :
  KubernetesMinVersionTransform getenv h = (Some err, h') →
  ∃ k, GetKind (Object h) = kindName k ∧
    ((ConvertFrom k (Object h) = inl err
      ∧ Calls h' = Calls h ++ [GetKindCall; DecodeCall k]
      ∧ Object h' = Object h)
     ∨ (∃ w,
         let w' := injected (minVersionEnv (getenv KubernetesMinVersionKey)) w in
         ConvertFrom k (Object h) = inr w
         ∧ ConvertTo k w' (Object h) = (Some err, Object h')
         ∧ Calls h' = Calls h ++ [GetKindCall; DecodeCall k; EncodeCall k w']
         ∧ (AtomicEncode Unstructured Error → Object h' = Object h))).
Proof.
  intros Hrun.
  destruct (decide (getenv KubernetesMinVersionKey = "")) as [Hoff|Hon].
  { by rewrite transform_disabled in Hrun. }
  rewrite transform_enabled in Hrun by done.
  destruct (supportedKind (GetKind (Object h))) as [k|] eqn:Hk.
  2: { by rewrite enabled_unsupported in Hrun. }
  rewrite (enabled_supported _ _ k) in Hrun by done.
  exists k. split; [by apply supportedKind_name|].
  destruct (ConvertFrom k (Object h)) as [err0|w] eqn:Hdec.
  - left. by injection Hrun as -> <-.
  - right. exists w.
    destruct (ConvertTo k _ (Object h)) as [[err0|] u] eqn:Henc; [|done].
    injection Hrun as -> <-. simpl. split_and!; [done..|].
    intros Hatomic. apply (encode_all_or_nothing _ _ _ _ _ Henc).
Qed.

(** C8, amended: when the transformer returns success, either the contents
    of the document are untouched, or the document is of one of the four kinds and
    its contents are those left by encoding the decoded object after
    injection and resetting the creation timestamp, where injection changes
    nothing outside the container and init-container environment lists; with
    a reversible codec the kind is then unchanged and the typed object the
    document decodes to afterwards is the one it decoded to before in name,
    namespace and everything outside those lists, but for the creation
    timestamp, which is zero. *)
Theorem success_frame getenv h h' :
  KubernetesMinVersionTransform getenv h = (None, h') →
  Object h' = Object h
  ∨ ∃ k w u,
      let w' := injected (minVersionEnv (getenv KubernetesMinVersionKey)) w in
      GetKind (Object h) = kindName k
      ∧ ConvertFrom k (Object h) = inr w
      ∧ ConvertTo k w' (Object h) = (None, u)
      ∧ Object h' = SetCreationTimestamp None u
      ∧ outsideEnv w' = outsideEnv w
      ∧ (ReversibleCodec Unstructured Error →
         GetKind (Object h') = GetKind (Object h)
         ∧ ∃ w'', ConvertFrom k (Object h') = inr w''
                  ∧ ObjectName (Meta w'') = ObjectName (Meta w)
                  ∧ Namespace (Meta w'') = Namespace (Meta w)
                  ∧ CreationTimestamp (Meta w'') = None
                  ∧ outsideEnv w'' = withCreationTimestamp None (outsideEnv w)).
Proof.
  intros Hrun.
  destruct (decide (getenv KubernetesMinVersionKey = "")) as [Hoff|Hon].
  { rewrite transform_disabled in Hrun by done. injection Hrun as <-. auto. }
  rewrite transform_enabled in Hrun by done.
  destruct (supportedKind (GetKind (Object h))) as [k|] eqn:Hk.
  2: { rewrite enabled_unsupported in Hrun by done. injection Hrun as <-. auto. }
  rewrite (enabled_supported _ _ k) in Hrun by done.
  apply supportedKind_name in Hk.
  destruct (ConvertFrom k (Object h)) as [err0|w] eqn:Hdec; [done|].
  destruct (ConvertTo k _ (Object h)) as [[err0|] u] eqn:Henc; [done|].
  injection Hrun as <-. right. exists k, w, u. simpl.
  split_and!; [done..| apply injected_outsideEnv |].
  intros Hcodec. split.
  - by rewrite timestamp_kind, (encode_kind _ _ _ _ Henc).
  - exists (withCreationTimestamp None
      (injected (minVersionEnv (getenv KubernetesMinVersionKey)) w)).
    split_and!; try done.
    + by rewrite timestamp_decode, (encode_decode _ _ _ _ Henc).
    + by rewrite outsideEnv_timestamp, injected_outsideEnv.
Qed.

(** C3: applying the transformer to the document it has just been applied
    to gives the same result and leaves the contents of the document as the
    first application left them. *)
Theorem transform_idempotent
    `{!ReversibleCodec Unstructured Error}
    `{!OverwritingEncode Unstructured Error}
    `{!AtomicEncode Unstructured Error} getenv h :
  let once := KubernetesMinVersionTransform getenv h in
  let again := KubernetesMinVersionTransform getenv (snd once) in
  Object (snd again) = Object (snd once) ∧ fst again = fst once.
Proof.
  simpl.
  destruct (decide (getenv KubernetesMinVersionKey = "")) as [Hoff|Hon].
  { by rewrite !transform_disabled. }
  rewrite !transform_enabled by done.
  set (env := minVersionEnv (getenv KubernetesMinVersionKey)).
  destruct (supportedKind (GetKind (Object h))) as [k|] eqn:Hk.
  2: { rewrite (enabled_unsupported env h) by done. simpl.
       by rewrite enabled_unsupported. }
  rewrite (enabled_supported env h k) by done.
  destruct (ConvertFrom k (Object h)) as [err|w] eqn:Hdec.
  { simpl. rewrite (enabled_supported env _ k) by done. simpl.
    by rewrite Hdec. }
  destruct (ConvertTo k (injected env w) (Object h)) as [[err|] u] eqn:Henc.
  { pose proof (encode_all_or_nothing _ _ _ _ _ Henc) as ->. simpl.
    rewrite (enabled_supported env _ k) by done. simpl.
    by rewrite Hdec, Henc. }
  simpl.
  assert (GetKind (SetCreationTimestamp None u) = kindName k) as Hkind
    by (by rewrite timestamp_kind, (encode_kind _ _ _ _ Henc)).
  rewrite (enabled_supported env _ k)
    by (simpl; rewrite Hkind; apply supportedKind_kindName).
  simpl. rewrite timestamp_decode, (encode_decode _ _ _ _ Henc). simpl.
  rewrite injected_timestamp. subst env. unfold minVersionEnv in *.
  rewrite (injected_idem _ w).
  destruct (encode_timestamp _ _ _ _ Henc) as (u'' & Henc' & Hsame).
  rewrite (encode_overwrites _ _ _ _ (SetCreationTimestamp None u) Henc').
  simpl. by rewrite Hsame.
Qed.

(** C10: on a document of one of the four kinds that decodes to a typed
    object with no containers and no init containers, the enabled transformer
    injects nothing, the typed object is the decoded one, and yet it is
    encoded back into the document and the creation timestamp is reset: the
    contents become those the encode and the reset leave. *)
Theorem empty_template_round_trip getenv h k w u :
  getenv KubernetesMinVersionKey ≠ "" →
  GetKind (Object h) = kindName k →
  ConvertFrom k (Object h) = inr w →
  Containers (Spec_Template_Spec w) = [] →
  InitContainers (Spec_Template_Spec w) = [] →
  ConvertTo k w (Object h) = (None, u) →
  injected (minVersionEnv (getenv KubernetesMinVersionKey)) w = w
  ∧ KubernetesMinVersionTransform getenv h =
      (None,
       {| Object := SetCreationTimestamp None u;
          Calls := Calls h ++ [GetKindCall; DecodeCall k; EncodeCall k w;
                               SetCreationTimestampCall None] |}).
Proof.
  intros Hon Hkind Hdec Hcs Hics Henc.
  pose proof (injected_empty
    (minVersionEnv (getenv KubernetesMinVersionKey)) w Hcs Hics) as Hsame.
  split; [done|].
  rewrite transform_enabled by done.
  rewrite (enabled_supported _ _ k)
    by (rewrite Hkind; apply supportedKind_kindName).
  by rewrite Hdec, Hsame, Henc.
Qed.

End TransformerClaims.

(** ** The scenarios of the tests, on the sample documents *)

Section SampleFacts.

#[local] Existing Instance Sample.scheme.

Lemma sample_reversible : ReversibleCodec Sample.Document string.
Proof.
  split.
  - by intros k w u u' [= <-].
  - by intros k w u u' [= <-].
  - done.
  - intros k t [kind [w|] unknown]; done.
Qed.

Lemma sample_atomic : AtomicEncode Sample.Document string.
Proof. intros k w u err u' Henc. discriminate Henc. Qed.

Lemma sample_overwriting : OverwritingEncode Sample.Document string.
Proof.
  split.
  - by intros k w u u' u0 [= <-].
  - intros k w u u' [= <-]. by eexists.
Qed.

(** The controller container of the tests: same length, same order, only
    the value of the override's entry changed. *)
Example controller_env_after :
  sum_map id (λ podSpec, Env <$> Containers podSpec)
    (podSpecFromResource
       (Object (snd (KubernetesMinVersionTransform (Sample.setenv "v1.25.0")
                       (Sample.fresh Sample.controller)))))
  = inr [ [ {| Name := "EXISTING"; Value := "1" |};
            {| Name := KubernetesMinVersionKey; Value := "v1.25.0" |} ];
          [ {| Name := KubernetesMinVersionKey; Value := "v1.25.0" |} ] ].
Proof. reflexivity. Qed.

Example controller_unset :
  KubernetesMinVersionTransform Sample.unsetenv (Sample.fresh Sample.controller)
  = (None, Sample.fresh Sample.controller).
Proof. reflexivity. Qed.

Lemma enabled_injects_override_witness :
  let h := Sample.fresh Sample.controller in
  let h' := snd (KubernetesMinVersionTransform (Sample.setenv "v1.25.0") h) in
  ∃ w u,
    let w' := injected (minVersionEnv "v1.25.0") w in
    let resolves := λ c : Container,
      hasEnv (Env c) KubernetesMinVersionKey "v1.25.0" = true in
    ConvertFrom Deployment (Object h) = inr w
    ∧ ConvertTo Deployment w' (Object h) = (None, u)
    ∧ Object h' = SetCreationTimestamp None u
    ∧ length (Containers (Spec_Template_Spec w'))
      = length (Containers (Spec_Template_Spec w))
    ∧ length (InitContainers (Spec_Template_Spec w'))
      = length (InitContainers (Spec_Template_Spec w))
    ∧ (∀ i c, Containers (Spec_Template_Spec w) !! i = Some c →
         ∃ c', Containers (Spec_Template_Spec w') !! i = Some c'
               ∧ ContainerName c' = ContainerName c ∧ resolves c')
    ∧ (∀ i c, InitContainers (Spec_Template_Spec w) !! i = Some c →
         ∃ c', InitContainers (Spec_Template_Spec w') !! i = Some c'
               ∧ ContainerName c' = ContainerName c ∧ resolves c')
    ∧ Forall resolves
        (Containers (Spec_Template_Spec w')
         ++ InitContainers (Spec_Template_Spec w'))
    ∧ (ReversibleCodec Sample.Document string →
       podSpecFromResource (Object h') = inr (Spec_Template_Spec w')).
Proof.
  intros h h'.
  apply (enabled_injects_override (Sample.setenv "v1.25.0") h Deployment h');
    [by vm_compute | reflexivity | reflexivity].
Defined.

Lemma disabled_is_noop_witness :
  let h := Sample.fresh Sample.controller in
  let '(err, h') := KubernetesMinVersionTransform Sample.unsetenv h in
  err = None ∧ h' = h
  ∧ GetKind (Object h') = GetKind (Object h)
  ∧ ∀ k, ConvertFrom k (Object h') = ConvertFrom k (Object h).
Proof.
  apply (disabled_is_noop Sample.unsetenv (Sample.fresh Sample.controller)).
  reflexivity.
Defined.

Lemma transform_idempotent_witness :
  let once := KubernetesMinVersionTransform (Sample.setenv "v1.25.0")
                (Sample.fresh Sample.controller) in
  let again := KubernetesMinVersionTransform (Sample.setenv "v1.25.0") (snd once) in
  Object (snd again) = Object (snd once) ∧ fst again = fst once.
Proof.
  apply (transform_idempotent
           (ReversibleCodec0 := sample_reversible)
           (OverwritingEncode0 := sample_overwriting)
           (AtomicEncode0 := sample_atomic)
           (Sample.setenv "v1.25.0") (Sample.fresh Sample.controller)).
Defined.

Lemma error_leaves_document_witness :
  let h := Sample.fresh Sample.broken in
  let h' := snd (KubernetesMinVersionTransform (Sample.setenv "v1.25.0") h) in
  ∃ k, GetKind (Object h) = kindName k ∧
    ((ConvertFrom k (Object h) = inl Sample.malformed
      ∧ Calls h' = Calls h ++ [GetKindCall; DecodeCall k]
      ∧ Object h' = Object h)
     ∨ (∃ w,
         let w' := injected (minVersionEnv "v1.25.0") w in
         ConvertFrom k (Object h) = inr w
         ∧ ConvertTo k w' (Object h) = (Some Sample.malformed, Object h')
         ∧ Calls h' = Calls h ++ [GetKindCall; DecodeCall k; EncodeCall k w']
         ∧ (AtomicEncode Sample.Document string → Object h' = Object h))).
Proof.
  intros h h'.
  apply (error_leaves_document (Sample.setenv "v1.25.0") h Sample.malformed h').
  reflexivity.
Defined.

Lemma unsupported_kind_passthrough_witness :
  let h := Sample.fresh Sample.configMap in
  let '(err, h') := KubernetesMinVersionTransform (Sample.setenv "v1.25.0") h in
  err = None ∧ Object h' = Object h
  ∧ ∃ calls, Calls h' = Calls h ++ calls ∧ Forall (λ c, c = GetKindCall) calls.
Proof.
  apply (unsupported_kind_passthrough (Sample.setenv "v1.25.0")
           (Sample.fresh Sample.configMap)).
  by vm_compute; intros H; repeat (apply elem_of_cons in H as [H|H]; [done|]);
     apply elem_of_nil in H.
Defined.

(** C8, as stated, on [Sample.annotated]: the codec is reversible, the
    enabled transformer returns success, the kind and the typed object are
    as C8 wants them, and yet a field of the document outside the pod
    template and other than the creation timestamp has changed: the field
    the typed shape has no place for did not come back from the round
    trip. *)
Lemma success_frame_document_fails :
  let h := Sample.fresh Sample.annotated in
  let '(err, h') := KubernetesMinVersionTransform (Sample.setenv "v1.25.0") h in
  ReversibleCodec Sample.Document string
  ∧ err = None
  ∧ Sample.docUnknown (Object h) = [("bogusField", "x")]
  ∧ Sample.docUnknown (Object h') = []
  ∧ ¬ (Sample.docUnknown (Object h') = Sample.docUnknown (Object h)).
Proof.
  vm_compute. split_and!; [apply sample_reversible | done..].
Qed.

Lemma success_frame_witness :
  let h := Sample.fresh Sample.controller in
  let h' := snd (KubernetesMinVersionTransform (Sample.setenv "v1.25.0") h) in
  Object h' = Object h
  ∨ ∃ k w u,
      let w' := injected (minVersionEnv "v1.25.0") w in
      GetKind (Object h) = kindName k
      ∧ ConvertFrom k (Object h) = inr w
      ∧ ConvertTo k w' (Object h) = (None, u)
      ∧ Object h' = SetCreationTimestamp None u
      ∧ outsideEnv w' = outsideEnv w
      ∧ (ReversibleCodec Sample.Document string →
         GetKind (Object h') = GetKind (Object h)
         ∧ ∃ w'', ConvertFrom k (Object h') = inr w''
                  ∧ ObjectName (Meta w'') = ObjectName (Meta w)
                  ∧ Namespace (Meta w'') = Namespace (Meta w)
                  ∧ CreationTimestamp (Meta w'') = None
                  ∧ outsideEnv w'' = withCreationTimestamp None (outsideEnv w)).
Proof.
  intros h h'.
  apply (success_frame (Sample.setenv "v1.25.0") h h').
  reflexivity.
Defined.

Lemma disabled_never_inspects_witness :
  (∀ h, let '(err, h') := KubernetesMinVersionTransform Sample.unsetenv h in
        err = None ∧ Calls h' = Calls h)
  ∧ (fst (KubernetesMinVersionTransform (Sample.setenv "v1.25.0")
            (Sample.fresh Sample.broken)) = Some Sample.malformed
     ∧ fst (KubernetesMinVersionTransform Sample.unsetenv
              (Sample.fresh Sample.broken)) = None).
Proof.
  destruct (disabled_never_inspects Sample.unsetenv eq_refl) as [Hall Hbroken].
  split; [exact Hall|].
  apply (Hbroken (Sample.setenv "v1.25.0") (Sample.fresh Sample.broken)
           Deployment Sample.malformed);
    [by vm_compute | reflexivity | reflexivity].
Defined.

(** The empty Job comes out changed, its creation timestamp gone, though no
    environment entry was injected anywhere. *)
Lemma empty_template_round_trip_witness :
  let h := Sample.fresh Sample.emptyJob in
  let w := Sample.workload "migrate" (Some "2026-01-01T00:00:00Z")
             {| Containers := []; InitContainers := []; PodSpecOther := [] |} in
  let u := Sample.document "Job" w in
  injected (minVersionEnv "v1.25.0") w = w
  ∧ KubernetesMinVersionTransform (Sample.setenv "v1.25.0") h =
      (None,
       {| Object := SetCreationTimestamp None u;
          Calls := [GetKindCall; DecodeCall Job; EncodeCall Job w;
                    SetCreationTimestampCall None] |})
  ∧ SetCreationTimestamp None u ≠ Sample.emptyJob.
Proof.
  intros h w u.
  destruct (empty_template_round_trip (Sample.setenv "v1.25.0") h Job w u)
    as [Hsame Hrun]; [by vm_compute | reflexivity..|].
  split_and!; [exact Hsame | exact Hrun | by vm_compute].
Defined.

End SampleFacts.

(** ** Looking an entry up by name *)

Section EnvLookup.

Implicit Types (envs l : list EnvVar) (name value : string).

Lemma hasEnv_present envs name :
  name ∈ Name <$> envs → ∃ value, hasEnv envs name value = true.
Proof.
  induction envs as [|e envs IH]; simpl.
  - by intros ?%elem_of_nil.
  - destruct (String.eqb_spec (Name e) name) as [_|Hne].
    + intros _. exists (Value e). apply String.eqb_refl.
    + intros [Heq|Hin]%elem_of_cons; [by destruct Hne | by apply IH].
Qed.

Lemma hasEnv_missing envs name value :
  name ∉ Name <$> envs → hasEnv envs name value = false.
Proof.
  induction envs as [|e envs IH]; simpl; [done|].
  intros [Hne Hnot]%not_elem_of_cons.
  destruct (String.eqb_spec (Name e) name) as [Heq|_]; [by destruct Hne | by apply IH].
Qed.

(** [hasEnv] reports a name as missing, whatever the value asked for,
    exactly when no entry of the list carries the name; and when an entry
    carries it, the first such entry decides: the value asked for is
    accepted exactly when it is that entry's value, whatever follows. *)
Theorem hasEnv_absent_iff envs name :
  ((∀ value, hasEnv envs name value = false) ↔ name ∉ Name <$> envs)
  ∧ (∀ l1 e l2 value,
       envs = l1 ++ e :: l2 → name ∉ Name <$> l1 → Name e = name →
       hasEnv envs name value = String.eqb (Value e) value).
Proof.
  split.
  - split.
    + intros Hall Hin. destruct (hasEnv_present envs name Hin) as [value Hv].
      by rewrite Hall in Hv.
    + intros Hnot value. by apply hasEnv_missing.
  - intros l1 e l2 value -> Hl1 He.
    rewrite hasEnv_skip.
    + simpl. by rewrite He, String.eqb_refl.
    + apply Forall_forall. intros x Hx Hname. apply Hl1.
      rewrite <-Hname. by apply list_elem_of_fmap_2.
Qed.

(** [hasEnv] on a concatenation: a name that occurs in the first list is
    decided there, and the second list is consulted only when it does not. *)
Theorem hasEnv_app l1 l2 name value :
  hasEnv (l1 ++ l2) name value =
    if decide (name ∈ Name <$> l1) then hasEnv l1 name value
    else hasEnv l2 name value.
Proof.
  induction l1 as [|e l1 IH].
  - destruct (decide (name ∈ Name <$> [])) as [Hin|_]; [|done].
    by apply elem_of_nil in Hin.
  - change (hasEnv ((e :: l1) ++ l2) name value)
      with (if String.eqb (Name e) name then String.eqb (Value e) value
            else hasEnv (l1 ++ l2) name value).
    change (hasEnv (e :: l1) name value)
      with (if String.eqb (Name e) name then String.eqb (Value e) value
            else hasEnv l1 name value).
    rewrite IH, fmap_cons.
    destruct (String.eqb_spec (Name e) name) as [Heq|Hne].
    + destruct (decide (name ∈ Name e :: (Name <$> l1))) as [_|Hnot]; [done|].
      destruct Hnot. rewrite Heq. left.
    + destruct (decide (name ∈ Name <$> l1)) as [Hin|Hnot];
        destruct (decide (name ∈ Name e :: (Name <$> l1))) as [Hin'|Hnot'];
        try done.
      * destruct Hnot'. by right.
      * apply elem_of_cons in Hin' as [Heq|Hin']; [by destruct Hne | done].
Qed.

(** A name resolves to at most one value: two values that [hasEnv] accepts
    for the same name in the same list are equal. *)
Theorem hasEnv_unique envs name value value' :
  hasEnv envs name value = true → hasEnv envs name value' = true →
  value = value'.
Proof.
  induction envs as [|e envs IH]; simpl; [done|].
  destruct (String.eqb (Name e) name); [|done].
  intros H1%String.eqb_eq H2%String.eqb_eq. congruence.
Qed.

Lemma hasEnv_unique_witness :
  let envs := [ {| Name := "EXISTING"; Value := "1" |};
                {| Name := "EXISTING"; Value := "2" |} ] in
  hasEnv envs "EXISTING" "1" = true
  ∧ ∀ value, hasEnv envs "EXISTING" value = true → value = "1".
Proof.
  intros envs. split; [reflexivity|]. intros value Hvalue.
  apply (hasEnv_unique envs "EXISTING" value "1" Hvalue). reflexivity.
Defined.

End EnvLookup.

(** ** More on the merge of a single override *)

Section SingleOverride.

Implicit Types (o e : EnvVar) (tgt l : list EnvVar) (name value : string).

Lemma MergeStep_hasEnv_other o l l' name value :
  MergeStep o l l' → name ≠ Name o →
  hasEnv l' name value = hasEnv l name value.
Proof.
  intros [l1 e l2 He _ | l0 _] Hne.
  - induction l1 as [|x l1 IH]; simpl.
    + rewrite He. by destruct (String.eqb_spec (Name o) name) as [Heq|_].
    + by rewrite IH.
  - induction l0 as [|x l0 IH]; simpl.
    + by destruct (String.eqb_spec (Name o) name) as [Heq|_].
    + by rewrite IH.
Qed.

Lemma mergeEnv_single_hasEnv_other o tgt name value :
  name ≠ Name o →
  hasEnv (mergeEnv [o] tgt) name value = hasEnv tgt name value.
Proof.
  intros Hne. rewrite mergeEnv_single. destruct tgt as [|e tgt].
  - simpl. by destruct (String.eqb_spec (Name o) name) as [Heq|_].
  - apply (MergeStep_hasEnv_other o); [apply mergeOne_step | done].
Qed.

Lemma mergeOne_absorb o1 o2 l :
  Name o1 = Name o2 → mergeOne (mergeOne l o1) o2 = mergeOne l o2.
Proof.
  intros Hname. destruct (mergeOne_step l o1) as [l1 e l2 He Hl1 | l0 Hl].
  - rewrite Hname in He, Hl1.
    rewrite <-(MergeStep_mergeOne o2 (l1 ++ e :: l2) _
                 (step_replace o2 l1 e l2 He Hl1)).
    symmetry. apply MergeStep_mergeOne.
    by apply (step_replace o2 l1 {| Name := Name e; Value := Value o1 |} l2).
  - rewrite Hname in Hl.
    rewrite <-(MergeStep_mergeOne o2 l0 _ (step_append o2 l0 Hl)).
    symmetry. apply MergeStep_mergeOne.
    assert (MergeStep o2 (l0 ++ [o1])
              (l0 ++ [{| Name := Name o1; Value := Value o2 |}])) as Hs
      by (by apply step_replace).
    rewrite Hname in Hs. by destruct o2.
Qed.

Lemma mergeEnv_single_absorb o1 o2 tgt :
  Name o1 = Name o2 →
  mergeEnv [o2] (mergeEnv [o1] tgt) = mergeEnv [o2] tgt.
Proof.
  intros Hname. rewrite (mergeEnv_single o1 tgt). destruct tgt as [|e tgt].
  - simpl. unfold mergeOne, findFirst. simpl.
    rewrite decide_True by done. simpl. rewrite Hname. by destruct o2.
  - rewrite mergeEnv_single.
    destruct (mergeOne (e :: tgt) o1) as [|e' r] eqn:Hr.
    { by apply mergeOne_not_nil in Hr. }
    rewrite <-Hr, mergeEnv_single. by apply mergeOne_absorb.
Qed.

End SingleOverride.

(** ** More on the transformer and the test helper *)

Section TransformerMore.

Context {Unstructured Error : Type} `{!Scheme Unstructured Error}.

Implicit Types (h : Handle Unstructured) (u : Unstructured) (w : Workload).
Implicit Types (k : Kind) (getenv : string → string).

Lemma kindName_inj k k' : kindName k = kindName k' → k = k'.
Proof. by destruct k, k'. Qed.

Lemma supportedKinds_elem kind :
  kind ∈ supportedKinds ↔ ∃ k, kind = kindName k.
Proof.
  split.
  - intros (k & -> & _)%list_elem_of_fmap. by exists k.
  - intros [k ->]. apply list_elem_of_fmap_2. destruct k; repeat constructor.
Qed.

Lemma supportedKind_Some kind k :
  supportedKind kind = Some k ↔ kind = kindName k.
Proof.
  split; [apply supportedKind_name | intros ->; apply supportedKind_kindName].
Qed.

Lemma supportedKind_None_iff kind :
  supportedKind kind = None ↔ kind ∉ supportedKinds.
Proof.
  split; [|apply supportedKind_None].
  intros Hnone [k ->]%supportedKinds_elem.
  by rewrite supportedKind_kindName in Hnone.
Qed.

Lemma podSpecFromResource_unsupported u :
  supportedKind (GetKind u) = None →
  podSpecFromResource u = inl (UnsupportedKind (GetKind u)).
Proof.
  unfold supportedKind, podSpecFromResource. simpl.
  repeat (destruct (String.eqb (GetKind u) _); [done|]).
  done.
Qed.

(** [podSpecFromResource] has three outcomes: the unsupported-kind error,
    carrying the document's own kind, exactly when the kind is none of the
    four; the error of the decode at the document's kind, exactly when that
    decode fails; and the pod spec of the decoded object, exactly when it
    succeeds. *)
Theorem podSpecFromResource_cases u :
  (∀ kind, podSpecFromResource u = inl (UnsupportedKind kind)
           ↔ kind = GetKind u ∧ GetKind u ∉ supportedKinds)
  ∧ (∀ err, podSpecFromResource u = inl (ConvertError err)
            ↔ ∃ k, GetKind u = kindName k ∧ ConvertFrom k u = inl err)
  ∧ (∀ podSpec, podSpecFromResource u = inr podSpec
                ↔ ∃ k w, GetKind u = kindName k ∧ ConvertFrom k u = inr w
                         ∧ Spec_Template_Spec w = podSpec).
Proof.
  destruct (supportedKind (GetKind u)) as [k|] eqn:Hk.
  - apply supportedKind_name in Hk.
    assert (GetKind u ∈ supportedKinds) as Hin
      by (apply supportedKinds_elem; eauto).
    rewrite (podSpecFromResource_supported u k Hk).
    assert (∀ k', GetKind u = kindName k' → k' = k) as Hsame
      by (intros k' Hk'; apply kindName_inj; congruence).
    destruct (ConvertFrom k u) as [err0|w0] eqn:Hdec; split_and!.
    + intros kind. split; [done | by intros [_ Hnot]].
    + intros err. split.
      * intros [= <-]. eauto.
      * intros (k' & Hk' & Hdec'). apply Hsame in Hk' as ->. congruence.
    + intros podSpec. split; [done|].
      intros (k' & w & Hk' & Hdec' & _). apply Hsame in Hk' as ->. congruence.
    + intros kind. split; [done | by intros [_ Hnot]].
    + intros err. split; [done|].
      intros (k' & Hk' & Hdec'). apply Hsame in Hk' as ->. congruence.
    + intros podSpec. split.
      * intros [= <-]. eauto.
      * intros (k' & w & Hk' & Hdec' & <-). apply Hsame in Hk' as ->. congruence.
  - rewrite (podSpecFromResource_unsupported u Hk).
    pose proof (proj1 (supportedKind_None_iff _) Hk) as Hnot.
    assert (∀ k', GetKind u ≠ kindName k') as Hno
      by (intros k' Hk'; apply Hnot, supportedKinds_elem; eauto).
    split_and!.
    + intros kind. split; [by intros [= <-] | by intros [-> _]].
    + intros err. split; [done | by intros (k' & Hk'%Hno & _)].
    + intros podSpec. split; [done | by intros (k' & w & Hk'%Hno & _)].
Qed.

(** The transformer returns an error exactly when the override is set, the
    document's kind is one of the four, and either the decode at that kind
    fails or the encode of the injected object fails; the error returned is
    the one of the failing call. *)
Theorem transform_fails_iff getenv h err :
  fst (KubernetesMinVersionTransform getenv h) = Some err
  ↔ getenv KubernetesMinVersionKey ≠ ""
    ∧ ∃ k, GetKind (Object h) = kindName k
        ∧ (ConvertFrom k (Object h) = inl err
           ∨ ∃ w, ConvertFrom k (Object h) = inr w
                ∧ fst (ConvertTo k
                         (injected (minVersionEnv (getenv KubernetesMinVersionKey)) w)
                         (Object h)) = Some err).
Proof.
  destruct (decide (getenv KubernetesMinVersionKey = "")) as [Hoff|Hon].
  { rewrite transform_disabled by done. simpl. split; [done | by intros [? _]]. }
  rewrite transform_enabled by done.
  destruct (supportedKind (GetKind (Object h))) as [k|] eqn:Hk.
  2: { rewrite enabled_unsupported by done. simpl. split; [done|].
       intros (_ & k & Hkind & _).
       by rewrite Hkind, supportedKind_kindName in Hk. }
  rewrite (enabled_supported _ _ k) by done.
  apply supportedKind_name in Hk.
  assert (∀ k', GetKind (Object h) = kindName k' → k' = k) as Hsame
    by (intros k' Hk'; apply kindName_inj; congruence).
  destruct (ConvertFrom k (Object h)) as [err0|w] eqn:Hdec.
  - simpl. split.
    + intros [= <-]. eauto 6.
    + intros (_ & k' & Hk' & Hcase). apply Hsame in Hk' as ->.
      destruct Hcase as [Hd | (w & Hd & _)]; congruence.
  - destruct (ConvertTo k _ (Object h)) as [[err0|] u] eqn:Henc; simpl.
    + split.
      * intros [= <-]. split; [done|]. exists k. split; [done|]. right.
        exists w. by rewrite Henc.
      * intros (_ & k' & Hk' & Hcase). apply Hsame in Hk' as ->.
        destruct Hcase as [Hd | (w' & Hd & He)]; [congruence|].
        assert (w' = w) as -> by congruence. by rewrite Henc in He.
    + split; [done|].
      intros (_ & k' & Hk' & Hcase). apply Hsame in Hk' as ->.
      destruct Hcase as [Hd | (w' & Hd & He)]; [congruence|].
      assert (w' = w) as -> by congruence. by rewrite Henc in He.
Qed.



(** The transformer and [podSpecFromResource] dispatch alike. On a document
    for which [podSpecFromResource] reports an unsupported kind, the enabled
    transformer succeeds and leaves the contents; where it reports a decode
    error, the transformer returns that error and leaves the contents; where
    it returns a pod spec, the transformer encodes, at the document's kind,
    the decoded object with that pod spec after [applyMinVersionEnvVar]. *)
Theorem transform_agrees_with_podSpecFromResource getenv h :
  getenv KubernetesMinVersionKey ≠ "" →
  let '(err, h') := KubernetesMinVersionTransform getenv h in
  match podSpecFromResource (Object h) with
  | inl (UnsupportedKind kind) =>
      kind = GetKind (Object h) ∧ err = None ∧ Object h' = Object h
  | inl (ConvertError e) => err = Some e ∧ Object h' = Object h
  | inr podSpec =>
      ∃ k w, GetKind (Object h) = kindName k
           ∧ ConvertFrom k (Object h) = inr w
           ∧ Spec_Template_Spec w = podSpec
           ∧ EncodeCall k
               (withPodSpec w
                  (applyMinVersionEnvVar podSpec
                     (minVersionEnv (getenv KubernetesMinVersionKey))))
             ∈ Calls h'
  end.
Proof.
  intros Hon. rewrite transform_enabled by done.
  destruct (supportedKind (GetKind (Object h))) as [k|] eqn:Hk.
  2: { rewrite enabled_unsupported, podSpecFromResource_unsupported by done.
       done. }
  rewrite (enabled_supported _ _ k) by done.
  apply supportedKind_name in Hk.
  rewrite (podSpecFromResource_supported _ k Hk).
  destruct (ConvertFrom k (Object h)) as [err0|w] eqn:Hdec; [done|].
  destruct (ConvertTo k _ (Object h)) as [[err0|] u] eqn:Henc;
    exists k, w; split_and!; try done; simpl;
    apply elem_of_app; right; repeat constructor.
Qed.

(** What the third assertion of the injection test checks, for any
    document: after a successful enabled application the container at each
    position of the pod template keeps its name, and every name other than
    the override's resolves in its environment exactly as before; likewise
    for the init containers. *)
Theorem existing_env_survives `{!ReversibleCodec Unstructured Error}
    getenv h h' podSpec name value :
  getenv KubernetesMinVersionKey ≠ "" →
  KubernetesMinVersionTransform getenv h = (None, h') →
  podSpecFromResource (Object h) = inr podSpec →
  name ≠ KubernetesMinVersionKey →
  ∃ podSpec',
    podSpecFromResource (Object h') = inr podSpec'
    ∧ (∀ i c, Containers podSpec !! i = Some c →
         ∃ c', Containers podSpec' !! i = Some c'
               ∧ ContainerName c' = ContainerName c
               ∧ hasEnv (Env c') name value = hasEnv (Env c) name value)
    ∧ (∀ i c, InitContainers podSpec !! i = Some c →
         ∃ c', InitContainers podSpec' !! i = Some c'
               ∧ ContainerName c' = ContainerName c
               ∧ hasEnv (Env c') name value = hasEnv (Env c) name value).
Proof.
  intros Hon Hrun Hps Hname. rewrite transform_enabled in Hrun by done.
  destruct (supportedKind (GetKind (Object h))) as [k|] eqn:Hk.
  2: { by rewrite podSpecFromResource_unsupported in Hps. }
  rewrite (enabled_supported _ _ k) in Hrun by done.
  apply supportedKind_name in Hk.
  rewrite (podSpecFromResource_supported _ k Hk) in Hps.
  destruct (ConvertFrom k (Object h)) as [err0|w] eqn:Hdec; [done|].
  injection Hps as <-.
  destruct (ConvertTo k _ (Object h)) as [[err0|] u] eqn:Henc; [done|].
  injection Hrun as <-. simpl.
  eexists. split_and!.
  - rewrite (podSpecFromResource_supported _ k)
      by (by rewrite timestamp_kind, (encode_kind _ _ _ _ Henc)).
    by rewrite timestamp_decode, (encode_decode _ _ _ _ Henc).
  - intros i c Hi. simpl. rewrite list_lookup_fmap, Hi. simpl.
    eexists. split_and!; [done..|]. simpl.
    by apply mergeEnv_single_hasEnv_other.
  - intros i c Hi. simpl. rewrite list_lookup_fmap, Hi. simpl.
    eexists. split_and!; [done..|]. simpl.
    by apply mergeEnv_single_hasEnv_other.
Qed.

Lemma injected_absorb o1 o2 w :
  Name o1 = Name o2 → injected [o2] (injected [o1] w) = injected [o2] w.
Proof.
  intros Hname. unfold injected, withPodSpec, applyMinVersionEnvVar. simpl.
  rewrite <-!list_fmap_compose. do 2 f_equal.
  all: apply list_fmap_ext; intros _ c _; unfold withEnv; simpl.
  all: by rewrite mergeEnv_single_absorb.
Qed.

(** Changing the override: when the transformer built for one value and the
    transformer built for a second, non-empty value both succeed on a
    document, applying the second to what the first left succeeds too and
    gives the contents the second alone gives. *)
Theorem override_change
    `{!ReversibleCodec Unstructured Error}
    `{!OverwritingEncode Unstructured Error} getenv1 getenv2 h h1 h2 :
  getenv2 KubernetesMinVersionKey ≠ "" →
  KubernetesMinVersionTransform getenv1 h = (None, h1) →
  KubernetesMinVersionTransform getenv2 h = (None, h2) →
  let after := KubernetesMinVersionTransform getenv2 h1 in
  fst after = None ∧ Object (snd after) = Object h2.
Proof.
  intros Hon2 Hrun1 Hrun2. simpl.
  rewrite transform_enabled in Hrun2 |- * by done.
  set (env2 := minVersionEnv (getenv2 KubernetesMinVersionKey)) in *.
  destruct (decide (getenv1 KubernetesMinVersionKey = "")) as [Hoff1|Hon1].
  { rewrite transform_disabled in Hrun1 by done. injection Hrun1 as <-.
    by rewrite Hrun2. }
  rewrite transform_enabled in Hrun1 by done.
  set (env1 := minVersionEnv (getenv1 KubernetesMinVersionKey)) in *.
  destruct (supportedKind (GetKind (Object h))) as [k|] eqn:Hk.
  2: { rewrite enabled_unsupported in Hrun1 by done.
       rewrite enabled_unsupported in Hrun2 by done.
       injection Hrun1 as <-. injection Hrun2 as <-.
       by rewrite enabled_unsupported. }
  rewrite (enabled_supported env1 _ k) in Hrun1 by done.
  rewrite (enabled_supported env2 _ k) in Hrun2 by done.
  destruct (ConvertFrom k (Object h)) as [err0|w] eqn:Hdec; [done|].
  destruct (ConvertTo k (injected env1 w) (Object h)) as [[err1|] u1] eqn:Henc1;
    [done|].
  destruct (ConvertTo k (injected env2 w) (Object h)) as [[err2|] u2] eqn:Henc2;
    [done|].
  injection Hrun1 as <-. injection Hrun2 as <-. simpl.
  assert (GetKind (SetCreationTimestamp None u1) = kindName k) as Hkind
    by (by rewrite timestamp_kind, (encode_kind _ _ _ _ Henc1)).
  rewrite (enabled_supported env2 _ k)
    by (simpl; rewrite Hkind; apply supportedKind_kindName).
  simpl. rewrite timestamp_decode, (encode_decode _ _ _ _ Henc1). simpl.
  rewrite injected_timestamp. subst env1 env2. unfold minVersionEnv in *.
  rewrite (injected_absorb _ _ w) by done.
  destruct (encode_timestamp _ _ _ _ Henc2) as (u'' & Henc' & Hsame).
  rewrite (encode_overwrites _ _ _ _ (SetCreationTimestamp None u1) Henc').
  simpl. by rewrite Hsame.
Qed.

End TransformerMore.

(** ** The further properties on the sample documents *)

Section SampleMore.

#[local] Existing Instance Sample.scheme.

Lemma transform_agrees_with_podSpecFromResource_witness :
  let h := Sample.fresh Sample.controller in
  let h' := snd (KubernetesMinVersionTransform (Sample.setenv "v1.25.0") h) in
  ∃ k w, GetKind (Object h) = kindName k
       ∧ ConvertFrom k (Object h) = inr w
       ∧ Spec_Template_Spec w = Sample.makePodSpec
       ∧ EncodeCall k
           (withPodSpec w
              (applyMinVersionEnvVar Sample.makePodSpec (minVersionEnv "v1.25.0")))
         ∈ Calls h'.
Proof.
  intros h h'.
  assert (Sample.setenv "v1.25.0" KubernetesMinVersionKey ≠ "") as Hon
    by (by vm_compute).
  exact (transform_agrees_with_podSpecFromResource
           (Sample.setenv "v1.25.0") h Hon).
Defined.

Lemma existing_env_survives_witness :
  let h := Sample.fresh Sample.controller in
  let h' := snd (KubernetesMinVersionTransform (Sample.setenv "v1.25.0") h) in
  ∃ podSpec',
    podSpecFromResource (Object h') = inr podSpec'
    ∧ (∀ i c, Containers Sample.makePodSpec !! i = Some c →
         ∃ c', Containers podSpec' !! i = Some c'
               ∧ ContainerName c' = ContainerName c
               ∧ hasEnv (Env c') "EXISTING" "1" = hasEnv (Env c) "EXISTING" "1")
    ∧ (∀ i c, InitContainers Sample.makePodSpec !! i = Some c →
         ∃ c', InitContainers podSpec' !! i = Some c'
               ∧ ContainerName c' = ContainerName c
               ∧ hasEnv (Env c') "EXISTING" "1" = hasEnv (Env c) "EXISTING" "1").
Proof.
  intros h h'.
  apply (existing_env_survives (ReversibleCodec0 := sample_reversible)
           (Sample.setenv "v1.25.0") h h' Sample.makePodSpec "EXISTING" "1");
    [by vm_compute | reflexivity | reflexivity | by vm_compute].
Defined.

Lemma override_change_witness :
  let h := Sample.fresh Sample.controller in
  let h1 := snd (KubernetesMinVersionTransform (Sample.setenv "v1.20.0") h) in
  let h2 := snd (KubernetesMinVersionTransform (Sample.setenv "v1.25.0") h) in
  let after := KubernetesMinVersionTransform (Sample.setenv "v1.25.0") h1 in
  fst after = None ∧ Object (snd after) = Object h2.
Proof.
  intros h h1 h2.
  apply (override_change (ReversibleCodec0 := sample_reversible)
           (OverwritingEncode0 := sample_overwriting)
           (Sample.setenv "v1.20.0") (Sample.setenv "v1.25.0") h h1 h2);
    [by vm_compute | reflexivity | reflexivity].
Defined.

End SampleMore.
